(** * approxeng.util: interpolation, quantisation and the interval gate

    A shallow embedding of [src/python/approxeng/util/__init__.py].

    The Python functions are written once, over an interface [Number] of the
    numeric operations the source applies to its arguments (the source is
    duck-typed: its tests call it with both [int] and [float] arguments).
    Three instances are given:
    - [float], IEEE 754 binary64, the arithmetic the module computes in:
      every call goes through [1 / ...] and the literals [0.0] and [1.0];
    - [Q], exact rational arithmetic, on which the functions evaluate;
    - [R], the real numbers: exact arithmetic, without rounding, infinities
      or NaN. What is proved on [R] about numeric values is a property of
      the formulas; it carries over to the module only where no rounding is
      involved, as in the comparisons and state updates of the gate.  *)

From Stdlib Require Import ZArith List Bool Lia.
From Stdlib Require Import QArith Qround.
From Stdlib Require Import Reals Lra.
From Stdlib Require Import Floats.
Import ListNotations.

Set Implicit Arguments.

(** ** Exceptions and results *)

(** The [raise] statements of the module, one constructor per message, and
    the exceptions Python's own arithmetic can raise in the expressions the
    module evaluates. *)
Inductive message (T : Type) : Type :=
| low_pad_out_of_range (low_pad : T)
    (* f'low_pad must be between 0.0 and 1.0, was {low_pad}' *)
| high_pad_out_of_range (high_pad : T)
    (* f'high_pad must be between 0.0 and 1.0, was {high_pad}' *)
| levels_not_positive
    (* 'number of quantisation levels must be greater than zero' *)
| source_range_empty (source_low : T)
    (* f'unable to create interpolator, source_low == source_high == {source_low}' *)
| not_a_number.
    (* math.floor: 'cannot convert float NaN to integer' *)

Arguments levels_not_positive {T}.
Arguments not_a_number {T}.

Inductive exn (T : Type) : Type :=
| ValueError (msg : message T)
| ZeroDivisionError
| OverflowError
| RecursionError.

Arguments ZeroDivisionError {T}.
Arguments OverflowError {T}.
Arguments RecursionError {T}.

Inductive Result (T A : Type) : Type :=
| Ok (a : A)
| Raise (e : exn T).

Arguments Ok {T A} a.
Arguments Raise {T A} e.

Definition bind {T A B} (r : Result T A) (k : A -> Result T B) : Result T B :=
  match r with
  | Ok a => k a
  | Raise e => Raise e
  end.

Declare Scope py_scope.
Delimit Scope py_scope with py.

Notation "x <- r ;; k" := (bind r (fun x => k))
  (at level 61, r at next level, right associativity) : py_scope.

(** ** The numeric interface *)

Class Number (T : Type) : Type := {
  zero : T;
  one : T;
  add : T -> T -> T;
  sub : T -> T -> T;
  mul : T -> T -> T;
  (** [a / b]: raises [ZeroDivisionError] on a zero divisor *)
  div : T -> T -> Result T T;
  (** [a < b] and [a == b] *)
  ltb : T -> T -> bool;
  eqb : T -> T -> bool;
  (** the conversion of an [int] operand in mixed arithmetic *)
  of_int : Z -> Result T T;
  (** [math.floor] *)
  floor : T -> Result T Z
}.

Notation "0" := zero : py_scope.
Notation "1" := one : py_scope.
Infix "+" := add : py_scope.
Infix "-" := sub : py_scope.
Infix "*" := mul : py_scope.
Infix "/" := div : py_scope.
Infix "<?" := ltb : py_scope.
Notation "a >? b" := (ltb b a) : py_scope.
Infix "=?" := eqb : py_scope.

(** ** The interpolation and quantisation factories *)

Section Interpolation.

Context {T : Type} `{Number T}.
Local Open Scope py_scope.

(** Python's two-argument [max] and [min] keep their first argument unless
    the second compares strictly greater (respectively smaller). *)
Definition py_max (a b : T) : T := if b >? a then b else a.
Definition py_min (a b : T) : T := if b <? a then b else a.

(** The two closures of [interpolator], with the variables they capture
    as leading arguments. *)
Definition inner_interpolator
    (source_low source_range_inverse dest_low dest_high : T) (value : T) : T :=
  let i := (value - source_low) * source_range_inverse in
  i * dest_high + (1 - i) * dest_low.

Definition inner_locked_interpolator
    (source_low source_range_inverse dest_low dest_high : T) (value : T) : T :=
  let i := py_max 0 (py_min 1 ((value - source_low) * source_range_inverse)) in
  i * dest_high + (1 - i) * dest_low.

(** [interpolator] calls itself when [source_low > source_high]. The
    recursion is not structural, so the embedding carries the depth of
    calls still allowed and raises [RecursionError] when it is used up. *)
Fixpoint interpolator_rec (depth : nat)
    (source_low source_high dest_low dest_high : T) (lock_range : bool)
    : Result T (T -> T) :=
  match depth with
  | O => Raise RecursionError
  | S depth =>
    if source_low >? source_high then
      interpolator_rec depth source_high source_low dest_high dest_low lock_range
    else if source_low =? source_high then
      Raise (ValueError (source_range_empty source_low))
    else
      source_range_inverse <- 1 / (source_high - source_low) ;;
      Ok (if lock_range
          then inner_locked_interpolator source_low source_range_inverse dest_low dest_high
          else inner_interpolator source_low source_range_inverse dest_low dest_high)
  end.

(** The function [interpolator] returns, from the variables it captures. *)
Definition closure (lock_range : bool)
    (source_low source_range_inverse dest_low dest_high : T) : T -> T :=
  if lock_range
  then inner_locked_interpolator source_low source_range_inverse dest_low dest_high
  else inner_interpolator source_low source_range_inverse dest_low dest_high.

(** The depth allowed to a call from the outside; CPython's default limit
    on nested calls is 1000. *)
Definition recursion_limit : nat := 1000.

Definition interpolator := interpolator_rec recursion_limit.

Definition tuple_interpolator
    (source_low source_high dest_low dest_high : T) (lock_range : bool)
    : Result T (list T -> list T) :=
  i <- interpolator source_low source_high dest_low dest_high lock_range ;;
  Ok (fun t => map i t).

Definition quantise_to
    (source_low source_high : T) (max_level : Z) (low_pad high_pad : T)
    : Result T (T -> Result T Z) :=
  if (low_pad >? 1) || (low_pad <? 0) then
    Raise (ValueError (low_pad_out_of_range low_pad))
  else if (high_pad >? 1) || (high_pad <? 0) then
    Raise (ValueError (high_pad_out_of_range high_pad))
  else if (max_level <? 1)%Z then
    Raise (ValueError levels_not_positive)
  else
    levels <- of_int (max_level + 1) ;;
    i <- interpolator source_low source_high low_pad (levels - high_pad) true ;;
    Ok (fun value => level <- floor (i value) ;; Ok (Z.min max_level level)).

End Interpolation.

(** ** The instances *)

(** *** Real numbers *)

Definition Rltb (a b : R) : bool := if Rlt_dec a b then true else false.
Definition Reqb (a b : R) : bool := if Req_dec_T a b then true else false.

#[export] Instance Number_R : Number R := {
  zero := 0%R;
  one := 1%R;
  add := Rplus;
  sub := Rminus;
  mul := Rmult;
  div a b := if Reqb b 0%R then Raise ZeroDivisionError else Ok (a / b)%R;
  ltb := Rltb;
  eqb := Reqb;
  of_int z := Ok (IZR z);
  floor x := Ok (Zfloor x)
}.

(** *** Rational numbers *)

Definition Qltb (a b : Q) : bool := negb (Qle_bool b a).

#[export] Instance Number_Q : Number Q := {
  zero := 0%Q;
  one := 1%Q;
  add := Qplus;
  sub := Qminus;
  mul := Qmult;
  div a b := if Qeq_bool b 0%Q then Raise ZeroDivisionError else Ok (a / b)%Q;
  ltb := Qltb;
  eqb := Qeq_bool;
  of_int z := Ok (inject_Z z);
  floor x := Ok (Qfloor x)
}.

(** *** binary64 *)

(** [float(n)] for an [int] [n]: the nearest binary64, ties to even, and
    [OverflowError] when [n] rounds beyond the largest finite value. *)
Definition float_of_int (n : Z) : Result float float :=
  let f := SF2Prim (binary_normalize prec emax n 0 false) in
  if PrimFloat.is_infinity f then Raise OverflowError else Ok f.

(** [math.floor(x)] for a [float] [x]. *)
Definition float_floor (x : float) : Result float Z :=
  match Prim2SF x with
  | S754_zero _ => Ok 0%Z
  | S754_finite s m e =>
      let n := if s then Z.neg m else Z.pos m in
      Ok (if (0 <=? e)%Z then n * 2 ^ e else n / 2 ^ (- e))%Z
  | S754_infinity _ => Raise OverflowError
  | S754_nan => Raise (ValueError not_a_number)
  end.

#[export] Instance Number_float : Number float := {
  zero := 0%float;
  one := 1%float;
  add := PrimFloat.add;
  sub := PrimFloat.sub;
  mul := PrimFloat.mul;
  div a b := if PrimFloat.eqb b 0%float then Raise ZeroDivisionError
             else Ok (PrimFloat.div a b);
  ltb := PrimFloat.ltb;
  eqb := PrimFloat.eqb;
  of_int := float_of_int;
  floor := float_floor
}.

(** ** The interval gate *)

Record IntervalCheck (T : Type) : Type := {
  interval : T;
  last_time : option T   (* [None] until the gate first fires *)
}.

Definition set_last_time {T} (self : IntervalCheck T) (t : T) : IntervalCheck T :=
  {| interval := interval self; last_time := Some t |}.

Section IntervalGate.

Context {T : Type} `{Number T}.
Local Open Scope py_scope.

(** [time()] and [time.sleep()] come from Python's [time] module. They are
    parameters here: any state [World] of the clock and the scheduler, a
    clock reading that may change that state, and a sleep that moves it.
    [time.sleep] is taken to return for every duration it is given. *)
Variable World : Type.
Variable time : World -> T * World.
Variable time_sleep : T -> World -> World.

(** A method call: the object and the world go in, the returned value comes
    out together with the object and the world as the call left them. *)
Definition method (A : Type) : Type :=
  IntervalCheck T -> World -> A * IntervalCheck T * World.

Definition __init__ (interval : T) : IntervalCheck T :=
  {| interval := interval; last_time := None |}.

Definition should_run : method bool := fun self w =>
  let '(now, w) := time w in
  if match last_time self with
     | None => true
     | Some last => (now - last) >? interval self
     end
  then (true, set_last_time self now, w)
  else (false, self, w).


Definition sleep : method unit := fun self w =>
  let '(now, w) := time w in
  match last_time self with
  | None => (tt, set_last_time self now, w)
  | Some last =>
    if (now - last) >? interval self then (tt, self, w)
    else
      let remaining_interval := interval self - (now - last) in
      let w := time_sleep remaining_interval w in
      (tt, set_last_time self (now + remaining_interval), w)
  end.

Definition __enter__ : method unit := fun self w => sleep self w.

(** [exc] stands for the three arguments [exc_type, exc_val, exc_tb]:
    [None] when the block ended normally. The method returns Python's
    [None], which asks the [with] statement not to swallow the exception. *)
Definition __exit__ {E : Type} (exc : option E) : method unit := fun self w =>
  let '(now, w) := time w in
  (tt, set_last_time self now, w).

(** The statement [with self: body], as Python runs it for a context
    manager whose [__exit__] returns a false value: enter, run the block,
    exit with the exception if there is one, and let it propagate. *)
Definition with_ {A E : Type} (body : method (A + E)) : method (A + E) :=
  fun self w =>
    let '(_, self, w) := __enter__ self w in
    let '(r, self, w) := body self w in
    match r with
    | inl a => let '(_, self, w) := __exit__ (@None E) self w in (inl a, self, w)
    | inr e => let '(_, self, w) := __exit__ (Some e) self w in (inr e, self, w)
    end.

End IntervalGate.

(** A simulated clock for running the gate: [time()] reads [clock];
    [time.sleep(d)] is logged and returns [late] after the requested [d]. *)
Record SimWorld (T : Type) : Type := {
  clock : T;
  late : T;
  slept : list T
}.

Section Simulation.

Context {T : Type} `{Number T}.
Local Open Scope py_scope.

Definition sim_time (w : SimWorld T) : T * SimWorld T := (clock w, w).

Definition sim_sleep (d : T) (w : SimWorld T) : SimWorld T :=
  {| clock := clock w + d + late w; late := late w; slept := d :: slept w |}.

(** Time passing between two calls. *)
Definition elapse (d : T) (w : SimWorld T) : SimWorld T :=
  {| clock := clock w + d; late := late w; slept := slept w |}.

End Simulation.

(** ** The gate is due

    In the words of the specification: [last_time] is unset, or the time
    elapsed since [last_time] strictly exceeds [interval]. *)
Definition due (self : IntervalCheck R) (now : R) : Prop :=
  last_time self = None \/
  exists last, last_time self = Some last /\ (now - last > interval self)%R.

(** ** Runs of calls *)

Section Polling.

Context {T : Type} `{Number T}.

Variable World : Type.
Variable time : World -> T * World.

(** [n] calls of [should_run] one after the other, as a polling loop makes
    them. Each call is logged with the clock reading it took and its result. *)
Fixpoint poll (n : nat) (self : IntervalCheck T) (w : World)
    : list (T * bool) * IntervalCheck T * World :=
  match n with
  | O => ([], self, w)
  | S n =>
    let now := fst (time w) in
    let '(fired, self, w) := should_run time self w in
    let '(log, self, w) := poll n self w in
    ((now, fired) :: log, self, w)
  end.

End Polling.

(** The readings at which the gate fired. *)
Definition firings {T} (log : list (T * bool)) : list T :=
  map fst (filter snd log).

(** Each time is more than [interval] after the one before it, the first
    after [last] when there is one. *)
Fixpoint spaced (interval : R) (last : option R) (times : list R) : Prop :=
  match times with
  | [] => True
  | t :: times =>
    match last with
    | None => True
    | Some l => (t - l > interval)%R
    end /\ spaced interval (Some t) times
  end.


(** * Properties, over the real numbers

    Exact arithmetic. The statements about the gate rest on the comparisons
    and state updates only. The statements about interpolated values are
    those of the formulas without rounding; what the module computes in
    binary64 is in the part on binary64 further down. *)

Local Open Scope R_scope.

(** ** The comparisons and Python's [max] and [min] on [R] *)

Lemma Rltb_true (a b : R) : Rltb a b = true <-> a < b.
Proof. unfold Rltb. destruct (Rlt_dec a b); split; intros; congruence || lra. Qed.

Lemma Rltb_false (a b : R) : Rltb a b = false <-> b <= a.
Proof. unfold Rltb. destruct (Rlt_dec a b); split; intros; congruence || lra. Qed.

Lemma Reqb_true (a b : R) : Reqb a b = true <-> a = b.
Proof. unfold Reqb. destruct (Req_dec_T a b); split; intros; congruence. Qed.

Lemma Reqb_false (a b : R) : Reqb a b = false <-> a <> b.
Proof. unfold Reqb. destruct (Req_dec_T a b); split; intros; congruence. Qed.

Lemma py_max_R (a b : R) : py_max a b = Rmax a b.
Proof.
  unfold py_max, Rmax; cbn.
  destruct (Rle_dec a b) as [Hle | Hgt].
  - destruct (Rltb a b) eqn:E; [reflexivity |].
    apply Rltb_false in E. lra.
  - destruct (Rltb a b) eqn:E; [| reflexivity].
    apply Rltb_true in E. lra.
Qed.

Lemma py_min_R (a b : R) : py_min a b = Rmin a b.
Proof.
  unfold py_min, Rmin; cbn.
  destruct (Rle_dec a b) as [Hle | Hgt].
  - destruct (Rltb b a) eqn:E; [| reflexivity].
    apply Rltb_true in E. lra.
  - destruct (Rltb b a) eqn:E; [reflexivity |].
    apply Rltb_false in E. lra.
Qed.

(** The clamped position lies in the unit interval. *)
Lemma clamp_unit (x : R) : 0 <= py_max 0 (py_min 1 x) <= 1.
Proof.
  rewrite py_max_R, py_min_R.
  unfold Rmax, Rmin.
  destruct (Rle_dec 1 x); destruct (Rle_dec 0 _); lra.
Qed.

Lemma clamp_inside (x : R) : 0 <= x <= 1 -> py_max 0 (py_min 1 x) = x.
Proof.
  intros Hx. rewrite py_max_R, py_min_R.
  unfold Rmax, Rmin.
  destruct (Rle_dec 1 x); destruct (Rle_dec 0 _); lra.
Qed.

(** ** What [interpolator] returns on [R] *)

Lemma interpolator_rec_lt depth (sl sh dl dh : R) lock :
  sl < sh ->
  interpolator_rec (S depth) sl sh dl dh lock
  = Ok (closure lock sl (1 / (sh - sl)) dl dh).
Proof.
  intros Hlt. cbn.
  assert (E1 : Rltb sh sl = false) by (apply Rltb_false; lra).
  assert (E2 : Reqb sl sh = false) by (apply Reqb_false; lra).
  assert (E3 : Reqb (sh - sl) 0 = false) by (apply Reqb_false; lra).
  rewrite E1, E2, E3. reflexivity.
Qed.

Lemma interpolator_rec_eq depth (sl dl dh : R) lock :
  interpolator_rec (S depth) sl sl dl dh lock
  = Raise (ValueError (source_range_empty sl)).
Proof.
  cbn.
  assert (E1 : Rltb sl sl = false) by (apply Rltb_false; lra).
  assert (E2 : Reqb sl sl = true) by (apply Reqb_true; reflexivity).
  rewrite E1, E2. reflexivity.
Qed.

Lemma interpolator_rec_gt depth (sl sh dl dh : R) lock :
  sh < sl ->
  interpolator_rec (S (S depth)) sl sh dl dh lock
  = Ok (closure lock sh (1 / (sl - sh)) dh dl).
Proof.
  intros Hgt.
  rewrite <- (interpolator_rec_lt depth dh dl lock Hgt).
  cbn.
  assert (E1 : Rltb sh sl = true) by (apply Rltb_true; lra).
  rewrite E1. reflexivity.
Qed.

Lemma interpolator_lt (sl sh dl dh : R) lock :
  sl < sh ->
  interpolator sl sh dl dh lock = Ok (closure lock sl (1 / (sh - sl)) dl dh).
Proof. apply (interpolator_rec_lt 999). Qed.

Lemma interpolator_eq (sl dl dh : R) lock :
  interpolator sl sl dl dh lock = Raise (ValueError (source_range_empty sl)).
Proof. apply (interpolator_rec_eq 999). Qed.

Lemma interpolator_gt (sl sh dl dh : R) lock :
  sh < sl ->
  interpolator sl sh dl dh lock = Ok (closure lock sh (1 / (sl - sh)) dh dl).
Proof. apply (interpolator_rec_gt 998). Qed.

(** Two nested calls are all [interpolator] ever needs: the allowance
    [recursion_limit] is never used up, and any depth from 2 on gives the
    same result. *)
Lemma interpolator_depth (depth : nat) (sl sh dl dh : R) lock :
  interpolator_rec (S (S depth)) sl sh dl dh lock = interpolator sl sh dl dh lock.
Proof.
  destruct (Rtotal_order sl sh) as [Hlt | [Heq | Hgt]].
  - rewrite interpolator_lt by assumption. now apply interpolator_rec_lt.
  - subst sh. rewrite interpolator_eq. apply interpolator_rec_eq.
  - rewrite interpolator_gt by assumption. now apply interpolator_rec_gt.
Qed.

(** ** Clamping *)

Lemma inner_locked_interpolator_bounds (sl inv dl dh value : R) :
  Rmin dl dh <= inner_locked_interpolator sl inv dl dh value <= Rmax dl dh.
Proof.
  unfold inner_locked_interpolator.
  set (x := ((value - sl) * inv)%py).
  pose proof (clamp_unit x) as Hi.
  set (i := py_max _ _) in *. clearbody i. cbn.
  unfold Rmin, Rmax. destruct (Rle_dec dl dh); nra.
Qed.

(** ** Linear interpolation *)

(** Between the two ends of the source range the unlocked function is the
    affine map through [(source_low, dest_low)] and [(source_high, dest_high)]. *)
Lemma inner_interpolator_affine (sl sh dl dh value : R) :
  sl <> sh ->
  inner_interpolator sl (1 / (sh - sl)) dl dh value
  = dl + (value - sl) * (dh - dl) / (sh - sl).
Proof.
  intros Hne. unfold inner_interpolator; cbn.
  field. lra.
Qed.

(** Inside the source range the clamp is the identity, so both closures agree. *)
Lemma inner_locked_interpolator_inside (sl sh dl dh value : R) :
  sl < sh -> sl <= value <= sh ->
  inner_locked_interpolator sl (1 / (sh - sl)) dl dh value
  = inner_interpolator sl (1 / (sh - sl)) dl dh value.
Proof.
  intros Hlt Hin. unfold inner_locked_interpolator, inner_interpolator.
  rewrite clamp_inside; [reflexivity |]. cbn.
  assert (Hpos : 0 < / (sh - sl)) by (apply Rinv_0_lt_compat; lra).
  assert (Hone : (sh - sl) * / (sh - sl) = 1) by (field; lra).
  unfold Rdiv. rewrite Rmult_1_l. split; nra.
Qed.

Lemma closure_low (lock : bool) (sl sh dl dh : R) :
  sl < sh -> closure lock sl (1 / (sh - sl)) dl dh sl = dl.
Proof.
  intros Hlt. destruct lock; unfold closure.
  - rewrite inner_locked_interpolator_inside by lra.
    rewrite inner_interpolator_affine by lra. field. lra.
  - rewrite inner_interpolator_affine by lra. field. lra.
Qed.

Lemma closure_high (lock : bool) (sl sh dl dh : R) :
  sl < sh -> closure lock sl (1 / (sh - sl)) dl dh sh = dh.
Proof.
  intros Hlt. destruct lock; unfold closure.
  - rewrite inner_locked_interpolator_inside by lra.
    rewrite inner_interpolator_affine by lra. field. lra.
  - rewrite inner_interpolator_affine by lra. field. lra.
Qed.

(** A locked interpolator exists for every non-empty source range, maps the
    ends of the source range to the ends of the destination range, and stays
    between them. *)
Lemma interpolator_locked (sl sh dl dh : R) :
  sl <> sh ->
  exists f,
    interpolator sl sh dl dh true = Ok f /\
    f sl = dl /\ f sh = dh /\
    forall value, Rmin dl dh <= f value <= Rmax dl dh.
Proof.
  intros Hne.
  destruct (Rtotal_order sl sh) as [Hlt | [Heq | Hgt]]; [| contradiction |].
  - exists (closure true sl (1 / (sh - sl)) dl dh).
    split; [now apply interpolator_lt |].
    split; [now apply closure_low |].
    split; [now apply closure_high |].
    intros value. apply inner_locked_interpolator_bounds.
  - exists (closure true sh (1 / (sl - sh)) dh dl).
    split; [now apply interpolator_gt |].
    split; [now apply closure_high |].
    split; [now apply closure_low |].
    intros value. rewrite Rmin_comm, Rmax_comm.
    apply inner_locked_interpolator_bounds.
Qed.

(** In exact arithmetic a locked interpolator stays within its destination
    bounds on every input. (In binary64 the sum [i * dest_high +
    (1 - i) * dest_low] is rounded and can leave them: see
    [locked_interpolator_exceeds_dest].) *)
Lemma locked_interpolator_within_dest (source_low source_high dest_low dest_high : R) :
  source_low <> source_high ->
  exists f,
    interpolator source_low source_high dest_low dest_high true = Ok f /\
    forall value, Rmin dest_low dest_high <= f value <= Rmax dest_low dest_high.
Proof.
  intros Hne.
  destruct (interpolator_locked dest_low dest_high Hne) as (f & Hf & _ & _ & Hrange).
  exists f. split; assumption.
Qed.

(** Whatever the order of the source bounds, the function built maps
    [source_low] to [dest_low] and [source_high] to [dest_high]. *)
Lemma interpolator_endpoints (sl sh dl dh : R) (lock : bool) :
  sl <> sh ->
  exists f, interpolator sl sh dl dh lock = Ok f /\ f sl = dl /\ f sh = dh.
Proof.
  intros Hne.
  destruct (Rtotal_order sl sh) as [Hlt | [Heq | Hgt]]; [| contradiction |].
  - exists (closure lock sl (1 / (sh - sl)) dl dh).
    split; [now apply interpolator_lt |].
    split; [now apply closure_low | now apply closure_high].
  - exists (closure lock sh (1 / (sl - sh)) dh dl).
    split; [now apply interpolator_gt |].
    split; [now apply closure_high | now apply closure_low].
Qed.

(** The swap of the source bounds, as the recursive call makes it. *)
Lemma interpolator_swap (sl sh dl dh : R) (lock : bool) :
  sl > sh ->
  interpolator sl sh dl dh lock = interpolator sh sl dh dl lock.
Proof.
  intros Hgt.
  rewrite (interpolator_gt dl dh lock Hgt).
  symmetry. now apply interpolator_lt.
Qed.

(** In exact arithmetic: the inverse law, the swap of the bounds, and the
    ends of the source range mapped to the ends of the destination range.
    (In binary64 only the swap is exact: see [interpolator_swaps_bounds].) *)
Lemma interpolator_inverse_law (low high : R) :
  low <> high ->
  (exists f, interpolator low high high low false = Ok f /\
             forall v, f v = (low + high) - v) /\
  (forall dl dh lock,
     low > high ->
     interpolator low high dl dh lock = interpolator high low dh dl lock) /\
  (forall dl dh lock,
     exists f, interpolator low high dl dh lock = Ok f /\
               f low = dl /\ f high = dh).
Proof.
  intros Hne. split; [| split].
  - destruct (Rtotal_order low high) as [Hlt | [Heq | Hgt]]; [| contradiction |].
    + eexists. split; [now apply interpolator_lt |].
      intros v. unfold closure.
      rewrite inner_interpolator_affine by assumption. field. lra.
    + eexists. split; [now apply interpolator_gt |].
      intros v. unfold closure.
      rewrite inner_interpolator_affine by lra. field. lra.
  - intros dl dh lock Hgt. now apply interpolator_swap.
  - intros dl dh lock. now apply interpolator_endpoints.
Qed.

(** ** Quantisation *)

Lemma pad_check (p : R) : (Rltb 1 p || Rltb p 0)%bool = false <-> 0 <= p <= 1.
Proof.
  rewrite orb_false_iff, !Rltb_false. tauto.
Qed.

(** Past its three checks, [quantise_to] is the locked interpolator onto
    [low_pad .. max_level + 1 - high_pad], floored and capped. *)
Lemma quantise_to_checked (sl sh : R) (max_level : Z) (low_pad high_pad : R) :
  0 <= low_pad <= 1 -> 0 <= high_pad <= 1 -> (1 <= max_level)%Z ->
  quantise_to sl sh max_level low_pad high_pad
  = bind (interpolator sl sh low_pad (IZR (max_level + 1) - high_pad) true)
         (fun i => Ok (fun value => Ok (Z.min max_level (Zfloor (i value))))).
Proof.
  intros Hlow Hhigh Hlevel. unfold quantise_to. cbn.
  apply pad_check in Hlow. apply pad_check in Hhigh.
  rewrite Hlow, Hhigh.
  replace (max_level <? 1)%Z with false by (symmetry; apply Z.ltb_ge; lia).
  reflexivity.
Qed.

(** In exact arithmetic a quantiser built from valid parameters returns
    [min(max_level, floor(i(value)))], a level from [0] to [max_level], where
    the internal interpolator [i] sends [source_low] to [low_pad] and
    [source_high] to [max_level + 1 - high_pad]. (In binary64 [i] can fall
    short of its upper bound: see [quantiser_misses_max_level].) *)
Lemma quantise_to_levels (source_low source_high : R) (max_level : Z)
    (low_pad high_pad : R) :
  (1 <= max_level)%Z -> 0 <= low_pad <= 1 -> 0 <= high_pad <= 1 ->
  source_low <> source_high ->
  exists q i,
    quantise_to source_low source_high max_level low_pad high_pad = Ok q /\
    interpolator source_low source_high low_pad
                 (IZR max_level + 1 - high_pad) true = Ok i /\
    i source_low = low_pad /\
    i source_high = IZR max_level + 1 - high_pad /\
    forall value,
      low_pad <= i value <= IZR max_level + 1 - high_pad /\
      q value = Ok (Z.min max_level (Zfloor (i value))) /\
      (0 <= Z.min max_level (Zfloor (i value)) <= max_level)%Z.
Proof.
  intros Hlevel Hlow Hhigh Hne.
  assert (Htop : IZR (max_level + 1) = IZR max_level + 1) by apply plus_IZR.
  assert (Hone : 1 <= IZR max_level) by (apply IZR_le in Hlevel; exact Hlevel).
  destruct (interpolator_locked low_pad (IZR max_level + 1 - high_pad) Hne)
    as (i & Hi & Hi_low & Hi_high & Hrange).
  exists (fun value => Ok (Z.min max_level (Zfloor (i value)))), i.
  split.
  { rewrite quantise_to_checked by assumption. rewrite Htop, Hi. reflexivity. }
  repeat split; try assumption.
  - specialize (Hrange value). rewrite Rmin_left in Hrange by lra. lra.
  - specialize (Hrange value). rewrite Rmax_right in Hrange by lra. lra.
  - apply Z.min_glb; [lia |].
    apply Zfloor_lub. specialize (Hrange value).
    rewrite Rmin_left in Hrange by lra. lra.
  - apply Z.le_min_l.
Qed.

(** ** The repository's examples *)

Lemma closure_locked_inside (sl sh dl dh value : R) :
  sl < sh -> sl <= value <= sh ->
  closure true sl (1 / (sh - sl)) dl dh value
  = dl + (value - sl) * (dh - dl) / (sh - sl).
Proof.
  intros Hlt Hin. unfold closure.
  rewrite inner_locked_interpolator_inside by assumption.
  apply inner_interpolator_affine. lra.
Qed.

(** Three levels, as the tests of the repository ask for them from one
    quantiser. *)
Lemma three_levels (T : Type) (l1 l2 l3 n1 n2 n3 : Z) :
  l1 = n1 -> l2 = n2 -> l3 = n3 ->
  @Ok T (list Z) [l1; l2; l3] = Ok [n1; n2; n3].
Proof. intros -> -> ->. reflexivity. Qed.

Ltac level_inside n :=
  rewrite closure_locked_inside by lra;
  change (IZR (10 + 1)) with 11;
  rewrite (@Zfloor_eq n) by lra;
  reflexivity.

#[local] Set Warnings "-inexact-float".

(** C7. [q = quantise_to(0, 1, 10)] gives [q(0.51) = 5], [q(0.08) = 0] and
    [q(0.10) = 1]; [q' = quantise_to(0, 1, 10, low_pad=0.5, high_pad=0.5)]
    gives [q'(0) = 0], [q'(0.05) = 1] and [q'(0.95) = 10]. Both hold in exact
    real arithmetic and in binary64 arithmetic, where each decimal stands for
    the nearest binary64 value. *)
Theorem quantise_to_examples :
  ((q <- quantise_to (T:=R) 0 1 10 0 0 ;;
    a <- q 0.51%R ;; b <- q 0.08%R ;; c <- q 0.10%R ;; Ok [a; b; c])%py
   = Ok [5; 0; 1]%Z /\
   (q' <- quantise_to (T:=R) 0 1 10 0.5%R 0.5%R ;;
    a <- q' 0%R ;; b <- q' 0.05%R ;; c <- q' 0.95%R ;; Ok [a; b; c])%py
   = Ok [0; 1; 10]%Z) /\
  ((q <- quantise_to (T:=float) 0 1 10 0 0 ;;
    a <- q 0.51%float ;; b <- q 0.08%float ;; c <- q 0.10%float ;; Ok [a; b; c])%py
   = Ok [5; 0; 1]%Z /\
   (q' <- quantise_to (T:=float) 0 1 10 0.5%float 0.5%float ;;
    a <- q' 0%float ;; b <- q' 0.05%float ;; c <- q' 0.95%float ;; Ok [a; b; c])%py
   = Ok [0; 1; 10]%Z).
Proof.
  split; split.
  - change (@zero R _) with 0%R; change (@one R _) with 1%R.
    rewrite quantise_to_checked by (lra || lia).
    rewrite interpolator_lt by lra. cbn [bind].
    apply three_levels.
    + level_inside 5%Z.
    + level_inside 0%Z.
    + level_inside 1%Z.
  - change (@zero R _) with 0%R; change (@one R _) with 1%R.
    rewrite quantise_to_checked by (lra || lia).
    rewrite interpolator_lt by lra. cbn [bind].
    apply three_levels.
    + level_inside 0%Z.
    + level_inside 1%Z.
    + level_inside 10%Z.
  - vm_compute. reflexivity.
  - vm_compute. reflexivity.
Qed.

(** ** The interval gate *)

Section GateProperties.

Variable World : Type.
Variable time : World -> R * World.
Variable time_sleep : R -> World -> World.

Lemma due_decide (self : IntervalCheck R) (now : R) :
  match last_time self with
  | None => true
  | Some last => Rltb (interval self) (now - last)
  end = true <-> due self now.
Proof.
  unfold due. destruct (last_time self) as [last |].
  - rewrite Rltb_true. split.
    + intros Hlt. right. exists last. split; [reflexivity | lra].
    + intros [Hnone | (last' & [= <-] & Hlt)]; [discriminate | lra].
  - split; auto.
Qed.

Lemma due_or_not (self : IntervalCheck R) (now : R) :
  due self now \/ ~ due self now.
Proof.
  pose proof (due_decide self now) as Hdec.
  destruct (match last_time self with
            | None => true
            | Some last => Rltb (interval self) (now - last)
            end).
  - left. now apply Hdec.
  - right. intros Hd. apply Hdec in Hd. discriminate.
Qed.

Lemma should_run_due (self : IntervalCheck R) (w : World) :
  due self (fst (time w)) ->
  should_run time self w
  = (true, set_last_time self (fst (time w)), snd (time w)).
Proof.
  intros Hd. apply due_decide in Hd.
  unfold should_run. destruct (time w) as [now w']; cbn [fst snd] in *.
  cbn [sub ltb Number_R]. now rewrite Hd.
Qed.

Lemma should_run_not_due (self : IntervalCheck R) (w : World) :
  ~ due self (fst (time w)) ->
  should_run time self w = (false, self, snd (time w)).
Proof.
  intros Hd. rewrite <- due_decide in Hd. apply not_true_is_false in Hd.
  unfold should_run. destruct (time w) as [now w']; cbn [fst snd] in *.
  cbn [sub ltb Number_R]. now rewrite Hd.
Qed.

Lemma sleep_unset (self : IntervalCheck R) (w : World) :
  last_time self = None ->
  sleep time time_sleep self w
  = (tt, set_last_time self (fst (time w)), snd (time w)).
Proof.
  intros Hnone. unfold sleep.
  destruct (time w) as [now w']. now rewrite Hnone.
Qed.




(** C8. [__enter__] is [sleep()]. [__exit__], whatever exception it is
    handed and when handed none, sets [last_time] to the clock's reading and
    changes nothing else. So [with self: body] sleeps as [sleep()] does, runs
    the block, and ends with [last_time] set to the reading taken when the
    block ended, whether the block returned or raised; the block's result or
    exception is passed on. *)
Theorem with_statement_spec (A E : Type) (body : method World (A + E))
    (self : IntervalCheck R) (w : World) :
  __enter__ time time_sleep self w = sleep time time_sleep self w /\
  (forall (exc : option E) (self0 : IntervalCheck R) (w0 : World),
     __exit__ time exc self0 w0
     = (tt, {| interval := interval self0; last_time := Some (fst (time w0)) |},
        snd (time w0))) /\
  (forall self1 w1 r self2 w2,
     sleep time time_sleep self w = (tt, self1, w1) ->
     body self1 w1 = (r, self2, w2) ->
     with_ time time_sleep body self w
     = (r, {| interval := interval self2; last_time := Some (fst (time w2)) |},
        snd (time w2))).
Proof.
  split; [reflexivity | split].
  - intros exc self0 w0. unfold __exit__.
    destruct (time w0) as [now w0']. reflexivity.
  - intros self1 w1 r self2 w2 Henter Hbody.
    unfold with_, __enter__. rewrite Henter, Hbody.
    unfold __exit__. destruct (time w2) as [now w2']. cbn [fst snd].
    destruct r as [a | e]; reflexivity.
Qed.


End GateProperties.


(** * The tests of the repository, replayed

    On [Q] the embedding evaluates; on [float] it evaluates with the
    arithmetic of CPython's [float]. *)

(** [test_illegal_constructor] *)
Example test_illegal_constructor :
  interpolator 1%Q 1%Q 0%Q 1%Q false = Raise (ValueError (source_range_empty 1%Q)) /\
  interpolator 1%float 1%float 0%float 1%float false
  = Raise (ValueError (source_range_empty 1%float)).
Proof. split; vm_compute; reflexivity. Qed.

(** [test_interpolator_inverse_function], its first assertion: source bounds
    in order, destination bounds swapped. *)
Example test_interpolator_inverse_function :
  (i <- interpolator 1%Q 2%Q 2%Q 1%Q false ;; Ok (Qred (i 0%Q)))%py = Ok 3%Q /\
  (i <- interpolator 1%float 2%float 2%float 1%float false ;; Ok (i 0%float))%py
  = Ok 3%float.
Proof. split; vm_compute; reflexivity. Qed.

(** The same function from source bounds given high to low: one nested call. *)
Example interpolator_swapped_source :
  (i <- interpolator 2%Q 1%Q 1%Q 2%Q false ;; Ok (Qred (i 0%Q)))%py = Ok 3%Q.
Proof. vm_compute. reflexivity. Qed.

(** [test_quantisation] and [test_quantisation_with_pad], in exact arithmetic. *)
Example test_quantisation :
  (q <- quantise_to 0%Q 1%Q 10 0%Q 0%Q ;;
   a <- q (51 # 100) ;; b <- q (8 # 100) ;; c <- q (10 # 100) ;; Ok [a; b; c])%py
  = Ok [5; 0; 1]%Z /\
  (q <- quantise_to 0%Q 1%Q 10 (1 # 2) (1 # 2) ;;
   a <- q 0%Q ;; b <- q (5 # 100) ;; c <- q (95 # 100) ;; Ok [a; b; c])%py
  = Ok [0; 1; 10]%Z.
Proof. split; vm_compute; reflexivity. Qed.

(** A tuple of colour channels, each interpolated on the same basis; values
    outside the source range are clamped when the range is locked. *)
Example tuple_interpolator_example :
  (f <- tuple_interpolator 0%Q 255%Q 0%Q 1%Q true ;;
   Ok (map Qred (f [0; 51; 255; 300; -4]%Q)))%py
  = Ok [0; 1 # 5; 1; 1; 0]%Q.
Proof. vm_compute. reflexivity. Qed.

(** [test_init] of the interval gate: the first call fires, an immediate
    second call does not, a call after a sleep of the whole interval (and a
    little more, as a real sleep takes) fires again. *)
Example test_init :
  let w := {| clock := 100; late := 1 # 1000; slept := [] |}%Q in
  let i := __init__ 1%Q in
  let '(first, i, w) := should_run sim_time i w in
  let '(second, i, w) := should_run sim_time i w in
  let w := sim_sleep 1%Q w in
  let '(third, i, w) := should_run sim_time i w in
  (first, second, third) = (true, false, true).
Proof. vm_compute. reflexivity. Qed.

(** [sleep()] on an armed gate, 3 seconds into an interval of 10, with a
    [time.sleep] that returns 1 second late: 7 seconds are asked for,
    [last_time] becomes 110 while the clock reads 111. *)
Example sleep_sets_target_time :
  sleep sim_time sim_sleep
        {| interval := 10; last_time := Some 100 |}%Q
        {| clock := 103; late := 1; slept := [] |}%Q
  = (tt, {| interval := 10; last_time := Some 110 |}%Q,
     {| clock := 111; late := 1; slept := [7] |}%Q).
Proof. vm_compute. reflexivity. Qed.

(** The first [sleep()] and an overdue [sleep()] ask for no sleep at all. *)
Example sleep_without_sleeping :
  sleep sim_time sim_sleep (__init__ 10%Q) {| clock := 103; late := 1; slept := [] |}%Q
  = (tt, {| interval := 10; last_time := Some 103 |}%Q,
     {| clock := 103; late := 1; slept := [] |}%Q) /\
  sleep sim_time sim_sleep
        {| interval := 10; last_time := Some 100 |}%Q
        {| clock := 111; late := 1; slept := [] |}%Q
  = (tt, {| interval := 10; last_time := Some 100 |}%Q,
     {| clock := 111; late := 1; slept := [] |}%Q).
Proof. split; vm_compute; reflexivity. Qed.

(** [with] around a block that takes 5 seconds and raises: the gate sleeps
    7 seconds on entry, and on exit [last_time] is the clock's reading, 116;
    the exception passes through. *)
Example with_block_raising :
  with_ sim_time sim_sleep
        (fun self w => (@inr unit nat 7%nat, self, elapse 5%Q w))
        {| interval := 10; last_time := Some 100 |}%Q
        {| clock := 103; late := 1; slept := [] |}%Q
  = (inr 7%nat, {| interval := 10; last_time := Some 116 |}%Q,
     {| clock := 116; late := 1; slept := [7] |}%Q).
Proof. vm_compute. reflexivity. Qed.

(** ** Binary64 is not the real numbers

    In binary64 each operation rounds, so the equalities and bounds of
    exact arithmetic hold up to rounding error only: a
    locked interpolator onto the one-point range [0.3 .. 0.3] returns the
    next binary64 above [0.3] for the input [0.1], and the inverse mapping of
    [0.1 .. 0.7] misses [(0.1 + 0.7) - 0.3] by one unit in the last place. *)
Example binary64_rounding :
  (i <- interpolator 0%float 1%float 0.3%float 0.3%float true ;;
   Ok (i 0.1%float))%py
  = Ok 0.30000000000000004%float /\
  (i <- interpolator 0.1%float 0.7%float 0.7%float 0.1%float false ;;
   Ok (i 0.3%float, (0.1 + 0.7 - 0.3)%float))%py
  = Ok (0.5%float, 0.49999999999999994%float).
Proof. split; vm_compute; reflexivity. Qed.

(** Binary64 also has values that are no real numbers. A quantiser clamps
    infinite and NaN inputs like any other. A NaN pad, though, compares
    false both ways and so passes the checks of [quantise_to]; the function
    built then fails in [math.floor] when it is called. *)
Example binary64_not_a_number :
  (q <- quantise_to 0%float 1%float 10 0%float 0%float ;;
   a <- q infinity ;; b <- q neg_infinity ;; c <- q nan ;; Ok [a; b; c])%py
  = Ok [10; 0; 10]%Z /\
  (q <- quantise_to 0%float 1%float 10 nan 0%float ;; q 0.5%float)%py
  = Raise (ValueError not_a_number).
Proof. split; vm_compute; reflexivity. Qed.

(** * Runs of the gate *)

Lemma last_cons (A : Type) (a d : A) (l : list A) :
  last (a :: l) d = last l a.
Proof.
  revert a d. induction l as [| b l IH]; intros a d; [reflexivity |].
  change (last (a :: b :: l) d) with (last (b :: l) d).
  now rewrite (IH b d), (IH b a).
Qed.

Section GateRuns.

Variable World : Type.
Variable time : World -> R * World.
Variable time_sleep : R -> World -> World.

(** X11. At most once per interval. Over any number of successive calls of
    [should_run], whatever the clock reads at each call:
    - each reading at which the gate fires is more than [interval] after the
      reading at which it fired before, and after the [last_time] the gate
      started with;
    - [interval] never changes, and [last_time] ends as the last reading at
      which the gate fired, or where it started if it never fired;
    - a gate that starts unfired fires at the first call. *)
Theorem poll_firings_spaced (n : nat) (self : IntervalCheck R) (w : World) :
  let log := fst (fst (poll time n self w)) in
  let self' := snd (fst (poll time n self w)) in
  length log = n /\
  spaced (interval self) (last_time self) (firings log) /\
  interval self' = interval self /\
  last_time self' = last (map Some (firings log)) (last_time self) /\
  (last_time self = None -> (0 < n)%nat ->
   exists now rest, log = (now, true) :: rest).
Proof.
  cbv zeta. revert self w.
  induction n as [| n IH]; intros self w.
  - cbn. repeat split; auto. intros _ Hn. inversion Hn.
  - cbn [poll].
    destruct (due_or_not self (fst (time w))) as [Hdue | Hnot].
    + rewrite (@should_run_due World time self w Hdue).
      specialize (IH (set_last_time self (fst (time w))) (snd (time w))).
      destruct (poll time n (set_last_time self (fst (time w))) (snd (time w)))
        as [[log self'] w'].
      cbn [fst snd] in *. destruct IH as (Hlen & Hspaced & Hint & Hlast & _).
      unfold firings in *. cbn [filter snd map fst].
      split; [cbn; now rewrite Hlen |].
      split.
      { cbn [spaced]. split; [| exact Hspaced].
        destruct Hdue as [-> | (l & -> & Hgap)]; [exact I | exact Hgap]. }
      split; [exact Hint |].
      split; [now rewrite last_cons |].
      intros _ _. now exists (fst (time w)), log.
    + rewrite (@should_run_not_due World time self w Hnot).
      specialize (IH self (snd (time w))).
      destruct (poll time n self (snd (time w))) as [[log self'] w'].
      cbn [fst snd] in *. destruct IH as (Hlen & Hspaced & Hint & Hlast & _).
      unfold firings in *. cbn [filter snd map fst].
      split; [cbn; now rewrite Hlen |].
      repeat (split; [assumption |]).
      intros Hnone _. exfalso. apply Hnot. now left.
Qed.

End GateRuns.

(** * Properties for every number type

    What follows uses nothing of the arithmetic but the outcome of the
    comparisons the code makes, so it holds in binary64 as it stands. *)

Section AnyGate.

Context {T : Type} `{Number T}.
Local Open Scope py_scope.

Variable World : Type.
Variable time : World -> T * World.
Variable time_sleep : T -> World -> World.


End AnyGate.

Section AnyInterpolator.

Context {T : Type} `{Number T}.
Local Open Scope py_scope.

Lemma interpolator_rec_step (depth : nat) (sl sh dl dh : T) (lock : bool) :
  interpolator_rec (S depth) sl sh dl dh lock
  = if sl >? sh then interpolator_rec depth sh sl dh dl lock
    else if sl =? sh then Raise (ValueError (source_range_empty sl))
    else inv <- 1 / (sh - sl) ;; Ok (closure lock sl inv dl dh).
Proof. reflexivity. Qed.

(** The laws of an order that the comparisons of the code rely on. *)
Hypothesis ltb_asym : forall a b : T, (a <? b) = true -> (b <? a) = false.
Hypothesis ltb_not_eqb : forall a b : T, (a <? b) = true -> (a =? b) = false.

(** Under these laws [interpolator] makes at most one nested call: the
    depth allowed is never used up, and the three outcomes are these. *)
Lemma interpolator_outcome (sl sh dl dh : T) (lock : bool) :
  interpolator sl sh dl dh lock
  = if sl >? sh then inv <- 1 / (sl - sh) ;; Ok (closure lock sh inv dh dl)
    else if sl =? sh then Raise (ValueError (source_range_empty sl))
    else inv <- 1 / (sh - sl) ;; Ok (closure lock sl inv dl dh).
Proof.
  unfold interpolator, recursion_limit.
  rewrite (interpolator_rec_step 999).
  destruct (sl >? sh) eqn:Hgt; [| reflexivity].
  rewrite (interpolator_rec_step 998).
  now rewrite (ltb_asym _ _ Hgt), (ltb_not_eqb _ _ Hgt).
Qed.


End AnyInterpolator.

(** * Properties in binary64 *)

(** ** Comparisons *)

Lemma SFcompare_swap (f1 f2 : spec_float) :
  SFcompare f2 f1 = option_map CompOpp (SFcompare f1 f2).
Proof.
  destruct f1 as [s1 | s1 | | s1 m1 e1], f2 as [s2 | s2 | | s2 m2 e2];
    try (destruct s1); try (destruct s2); cbn; try reflexivity.
  all: rewrite (Z.compare_antisym e1 e2); destruct (e1 ?= e2)%Z; cbn; try reflexivity.
  all: pose proof (Pos.compare_cont_antisym m1 m2 Eq) as E; cbn in E; rewrite <- E.
  all: destruct (Pos.compare_cont Eq m1 m2); reflexivity.
Qed.

Lemma float_ltb_asym (a b : float) :
  (a <? b)%float = true -> (b <? a)%float = false.
Proof.
  rewrite !FloatAxioms.ltb_spec. unfold SFltb.
  rewrite (SFcompare_swap (Prim2SF a) (Prim2SF b)).
  destruct (SFcompare (Prim2SF a) (Prim2SF b)) as [[| |] |]; cbn; congruence.
Qed.

Lemma float_ltb_not_eqb (a b : float) :
  (a <? b)%float = true -> (a =? b)%float = false.
Proof.
  rewrite FloatAxioms.ltb_spec, FloatAxioms.eqb_spec. unfold SFltb, SFeqb.
  destruct (SFcompare (Prim2SF a) (Prim2SF b)) as [[| |] |]; cbn; congruence.
Qed.

Lemma float_eqb_not_gtb (a b : float) :
  (a =? b)%float = true -> (b <? a)%float = false.
Proof.
  rewrite FloatAxioms.ltb_spec, FloatAxioms.eqb_spec. unfold SFltb, SFeqb.
  rewrite (SFcompare_swap (Prim2SF a) (Prim2SF b)).
  destruct (SFcompare (Prim2SF a) (Prim2SF b)) as [[| |] |]; cbn; congruence.
Qed.

(** ** What [interpolator] returns *)

Lemma interpolator_outcome_float (sl sh dl dh : float) (lock : bool) :
  interpolator sl sh dl dh lock
  = if (sh <? sl)%float
    then bind (div 1%float (sl - sh)%float) (fun inv => Ok (closure lock sh inv dh dl))
    else if (sl =? sh)%float then Raise (ValueError (source_range_empty sl))
    else bind (div 1%float (sh - sl)%float) (fun inv => Ok (closure lock sl inv dl dh)).
Proof. exact (interpolator_outcome float_ltb_asym float_ltb_not_eqb sl sh dl dh lock). Qed.



Lemma interpolator_empty_float (sl sh dl dh : float) (lock : bool) :
  (sl =? sh)%float = true ->
  interpolator sl sh dl dh lock = Raise (ValueError (source_range_empty sl)).
Proof.
  intros Heq. rewrite interpolator_outcome_float.
  now rewrite (float_eqb_not_gtb Heq), Heq.
Qed.

(** ** [math.floor] and the conversion of an [int] *)


Lemma float_of_int_raises (n : Z) (e : exn float) :
  float_of_int n = Raise e -> e = OverflowError.
Proof.
  unfold float_of_int.
  destruct (is_infinity _); [intros [= <-]; reflexivity | discriminate].
Qed.

Lemma quantise_to_outcome_float (sl sh : float) (max_level : Z) (low_pad high_pad : float) :
  quantise_to sl sh max_level low_pad high_pad
  = if ((1 <? low_pad) || (low_pad <? 0))%float
    then Raise (ValueError (low_pad_out_of_range low_pad))
    else if ((1 <? high_pad) || (high_pad <? 0))%float
    then Raise (ValueError (high_pad_out_of_range high_pad))
    else if (max_level <? 1)%Z
    then Raise (ValueError levels_not_positive)
    else
      bind (float_of_int (max_level + 1)) (fun levels =>
      bind (interpolator sl sh low_pad (levels - high_pad)%float true) (fun i =>
      Ok (fun value =>
            bind (float_floor (i value)) (fun level => Ok (Z.min max_level level))))).
Proof. reflexivity. Qed.

(** ** The locked interpolator and the quantiser *)

(** C1. The code at the failing inputs. A locked interpolator onto the
    one-point range [0.3 .. 0.3] returns [0.30000000000000004] for the input
    [0.1], above both destination bounds; one onto
    [9.6 .. 9.599999999999998] returns [9.600000000000001] for [0.08]. *)
Theorem locked_interpolator_exceeds_dest :
  ((i <- interpolator 0 1 0.3 0.3 true ;; Ok (i 0.1))%py
   = Ok 0.30000000000000004 /\
   (0.3 <? 0.30000000000000004) = true /\
   (i <- interpolator 0 1 9.6 9.599999999999998 true ;; Ok (i 0.08))%py
   = Ok 9.6000000000000014 /\
   (9.6 <? 9.6000000000000014) = true)%float.
Proof. repeat split; vm_compute; reflexivity. Qed.


(** ** The gate *)


(** ** Errors *)



(** ** The order of the source bounds *)




(** ** An empty source range in [quantise_to] *)

(** C10, counterexample, with a [max_level] too large for a float:
    [quantise_to(3.0, 3.0, 2 ** 1024, 0.0, 0.0)] raises [OverflowError],
    from [max_level + 1 - high_pad], before [interpolator] is called. *)
Lemma quantise_to_overflows_first :
  (1 <=? 2 ^ 1024)%Z = true /\
  quantise_to 3%float 3%float (2 ^ 1024) 0%float 0%float = Raise OverflowError.
Proof. split; vm_compute; reflexivity. Qed.

(** C10 (amended). In binary64, when the three checks of [quantise_to]
    pass and [source_low == source_high]: if [max_level + 1] converts to a
    float, [quantise_to] raises the [ValueError] of its internal call of
    [interpolator], which none of its own checks raises; if it does not
    convert, [quantise_to] raises [OverflowError] instead. *)
Theorem quantise_to_empty_source_range_binary64
    (source_low source_high : float) (max_level : Z) (low_pad high_pad : float) :
  ((1 <? low_pad) || (low_pad <? 0))%float = false ->
  ((1 <? high_pad) || (high_pad <? 0))%float = false ->
  (max_level <? 1)%Z = false ->
  (source_low =? source_high)%float = true ->
  (forall levels,
     float_of_int (max_level + 1) = Ok levels ->
     interpolator source_low source_high low_pad (levels - high_pad)%float true
     = Raise (ValueError (source_range_empty source_low)) /\
     quantise_to source_low source_high max_level low_pad high_pad
     = Raise (ValueError (source_range_empty source_low))) /\
  (forall e,
     float_of_int (max_level + 1) = Raise e ->
     quantise_to source_low source_high max_level low_pad high_pad
     = Raise OverflowError).
Proof.
  intros Hlow Hhigh Hlevel Heq.
  rewrite quantise_to_outcome_float, Hlow, Hhigh, Hlevel.
  split.
  - intros levels ->. cbn [bind].
    rewrite (interpolator_empty_float low_pad (levels - high_pad)%float true Heq).
    split; reflexivity.
  - intros e Hraise. rewrite Hraise. cbn [bind].
    now rewrite (float_of_int_raises _ Hraise).
Qed.

Lemma quantise_to_empty_source_range_binary64_witness :
  (((1 <? 0) || (0 <? 0))%float = false /\
   ((1 <? 0.5) || (0.5 <? 0))%float = false /\
   (10 <? 1)%Z = false /\
   (3 =? 3)%float = true) /\
  (forall levels,
     float_of_int (10 + 1) = Ok levels ->
     interpolator 3%float 3%float 0%float (levels - 0.5)%float true
     = Raise (ValueError (source_range_empty 3%float)) /\
     quantise_to 3%float 3%float 10 0%float 0.5%float
     = Raise (ValueError (source_range_empty 3%float))) /\
  (forall e,
     float_of_int (10 + 1) = Raise e ->
     quantise_to 3%float 3%float 10 0%float 0.5%float = Raise OverflowError).
Proof.
  split; [repeat split; reflexivity |].
  apply (@quantise_to_empty_source_range_binary64 3%float 3%float 10 0%float 0.5%float);
    reflexivity.
Defined.

(** ** Values that are not numbers *)

Lemma SFcompare_refl (f : spec_float) :
  f <> S754_nan -> SFcompare f f = Some Eq.
Proof.
  destruct f as [s | s | | s m e]; intros Hf; try (destruct s); cbn;
    try reflexivity; try congruence.
  all: now rewrite Z.compare_refl, Pos.compare_cont_refl.
Qed.

Lemma is_nan_spec (x : float) : is_nan x = true <-> Prim2SF x = S754_nan.
Proof.
  unfold is_nan. rewrite negb_true_iff, FloatAxioms.eqb_spec. unfold SFeqb.
  split.
  - intros Hne. destruct (Prim2SF x) as [s | s | | s m e] eqn:Hx; [| | reflexivity |];
      rewrite SFcompare_refl in Hne by discriminate; discriminate.
  - intros ->. reflexivity.
Qed.


Lemma nan_sub_l (x y : float) : is_nan x = true -> is_nan (x - y)%float = true.
Proof.
  rewrite !is_nan_spec, sub_spec. now intros ->.
Qed.

Lemma nan_mul_l (x y : float) : is_nan x = true -> is_nan (x * y)%float = true.
Proof.
  rewrite !is_nan_spec, mul_spec. now intros ->.
Qed.

Lemma nan_add_l (x y : float) : is_nan x = true -> is_nan (x + y)%float = true.
Proof.
  rewrite !is_nan_spec, add_spec. now intros ->.
Qed.

Lemma nan_ltb_l (x y : float) : is_nan x = true -> (x <? y)%float = false.
Proof.
  rewrite is_nan_spec, FloatAxioms.ltb_spec. now intros ->.
Qed.


(** X16. A NaN input. In binary64 a locked interpolator treats a NaN input
    as the upper end of the source range: Python's [min(1.0, nan)] is [1.0],
    so the position is 1 and the result is
    [1.0 * d_high + (1.0 - 1.0) * d_low], where [d_high] is the destination
    bound that goes with the larger source bound. An unlocked interpolator
    returns NaN. Neither raises. *)
Theorem interpolator_of_nan (source_low source_high dest_low dest_high value : float) :
  is_nan value = true ->
  (forall f,
     interpolator source_low source_high dest_low dest_high true = Ok f ->
     f value = if (source_high <? source_low)%float
               then (1 * dest_low + (1 - 1) * dest_high)%float
               else (1 * dest_high + (1 - 1) * dest_low)%float) /\
  (forall g,
     interpolator source_low source_high dest_low dest_high false = Ok g ->
     is_nan (g value) = true).
Proof.
  intros Hnan.
  assert (Hlocked : forall s inv lo hi,
            closure true s inv lo hi value = (1 * hi + (1 - 1) * lo)%float).
  { intros s inv lo hi. unfold closure, inner_locked_interpolator.
    cbn [add sub mul one zero Number_float].
    replace (py_max 0%float (py_min 1%float ((value - s) * inv)%float))
      with 1%float; [reflexivity |].
    unfold py_max, py_min. cbn [ltb Number_float].
    rewrite (@nan_ltb_l _ 1%float (@nan_mul_l _ inv (@nan_sub_l value s Hnan))).
    vm_compute. reflexivity. }
  assert (Hunlocked : forall s inv lo hi,
            is_nan (closure false s inv lo hi value) = true).
  { intros s inv lo hi. unfold closure, inner_interpolator.
    cbn [add sub mul one zero Number_float].
    apply nan_add_l, nan_mul_l, nan_mul_l, nan_sub_l, Hnan. }
  split; intros f; rewrite interpolator_outcome_float.
  - destruct (source_high <? source_low)%float.
    + destruct (div 1%float (source_low - source_high)%float); cbn [bind];
        [intros [= <-]; apply Hlocked | discriminate].
    + destruct (source_low =? source_high)%float; [discriminate |].
      destruct (div 1%float (source_high - source_low)%float); cbn [bind];
        [intros [= <-]; apply Hlocked | discriminate].
  - destruct (source_high <? source_low)%float.
    + destruct (div 1%float (source_low - source_high)%float); cbn [bind];
        [intros [= <-]; apply Hunlocked | discriminate].
    + destruct (source_low =? source_high)%float; [discriminate |].
      destruct (div 1%float (source_high - source_low)%float); cbn [bind];
        [intros [= <-]; apply Hunlocked | discriminate].
Qed.

Lemma interpolator_of_nan_witness :
  is_nan nan = true /\
  (forall f,
     interpolator 0%float 255%float 0%float 1%float true = Ok f ->
     f nan = if (255 <? 0)%float
             then (1 * 0 + (1 - 1) * 1)%float
             else (1 * 1 + (1 - 1) * 0)%float) /\
  (forall g,
     interpolator 0%float 255%float 0%float 1%float false = Ok g ->
     is_nan (g nan) = true).
Proof.
  split; [reflexivity |].
  apply (@interpolator_of_nan 0%float 255%float 0%float 1%float nan).
  reflexivity.
Defined.
